(** * A shallow embedding of fb-adb's chat engine (src/chat.c)

    The engine talks to an interactive shell over two stdio streams:
    [cc->to] (outbound) and [cc->from] (inbound).  Bytes on the wire are
    integers in [0, 256); a C [char] is the same byte reinterpreted with
    the platform's signedness of [char], which is a section variable
    [char_signed] below.  All I/O is modelled as explicit state passing
    in a small state/failure monad; [die] aborts the whole process and is
    modelled as the [Died] outcome, carrying the state at the point of
    death. *)

From Stdlib Require Import ZArith List Bool Lia.
Import ListNotations.
Open Scope Z_scope.

(** ** Streams *)

(** The outbound [FILE*]: bytes already handed to the child ([sent]) and
    bytes sitting in the stdio buffer ([pending]) until the next
    [fflush].  The sink is modelled as one that never reports an error,
    so the [== EOF] branches after [fputs]/[putc]/[fflush] are never
    taken. *)
Record outfile := mk_outfile { sent : list Z; pending : list Z }.

(** A session ([struct chat]): the inbound stream is the list of bytes
    that [getc] will return, front first; [ungetc] pushes onto its front. *)
Record chat := mk_chat { from : list Z; to : outfile }.

(** Reasons for [die(ECOMM, ...)]. *)
Inductive fatal :=
| LostConnection                       (* chat_die / "lost connection to child" *)
| ExpectMismatch (expected found : Z)  (* "[child] expected 0x%02x %c, found ..." *)
| PrePromptText (msg : list Z).        (* die(ECOMM, "%s", pre_prompt) *)

Inductive res (A : Type) :=
| Ok (a : A) (cc : chat)
| Died (e : fatal) (cc : chat).
Arguments Ok {A} a cc.
Arguments Died {A} e cc.

Definition M (A : Type) := chat -> res A.

Definition ret {A} (a : A) : M A := fun cc => Ok a cc.

Definition bind {A B} (m : M A) (k : A -> M B) : M B :=
  fun cc => match m cc with
            | Ok a cc' => k a cc'
            | Died e cc' => Died e cc'
            end.

Notation "x <- m ;; k" := (bind m (fun x => k))
  (at level 61, m at next level, right associativity).
Notation "m ;; k" := (bind m (fun _ => k))
  (at level 61, right associativity).

Definition die {A} (e : fatal) : M A := fun cc => Died e cc.

(** ** stdio primitives *)

Definition EOF : Z := -1.

(** [getc]: the next byte, or [None] for end-of-input. *)
Definition getc : M (option Z) :=
  fun cc => match from cc with
            | [] => Ok None cc
            | b :: rest => Ok (Some b) (mk_chat rest (to cc))
            end.

(** [ungetc(c, f)]: fails, leaving the stream unchanged, when [c == EOF];
    otherwise pushes [(unsigned char) c] back. *)
Definition ungetc (c : Z) : M Z :=
  fun cc => if c =? EOF then Ok EOF cc
            else Ok (Z.land c 255) (mk_chat (Z.land c 255 :: from cc) (to cc)).

Definition out_fputs (o : outfile) (s : list Z) : outfile :=
  mk_outfile (sent o) (pending o ++ s).

Definition out_fflush (o : outfile) : outfile :=
  mk_outfile (sent o ++ pending o) [].

(** The bytes of a C string: everything before the first NUL. *)
Fixpoint c_str (s : list Z) : list Z :=
  match s with
  | [] => []
  | b :: s' => if b =? 0 then [] else b :: c_str s'
  end.

(** [fputs(s, cc->to)] (with [s] a C string) and [putc]. *)
Definition fputs (s : list Z) : M unit :=
  fun cc => Ok tt (mk_chat (from cc) (out_fputs (to cc) (c_str s))).

Definition putc (b : Z) : M unit :=
  fun cc => Ok tt (mk_chat (from cc) (out_fputs (to cc) [b])).

Definition fflush : M unit :=
  fun cc => Ok tt (mk_chat (from cc) (out_fflush (to cc))).

(** ** Growable strings (util.c is not part of src/)

    Modelled from the spec: the growable-byte-buffer collaborator
    "supporting append-byte and trim-trailing-whitespace" (sections 1 and 6).
    Whitespace is that of C's [isspace] in the C locale. *)
Definition isspace (c : Z) : bool :=
  (c =? 32) || ((9 <=? c) && (c <=? 13)).

Fixpoint drop_while (f : Z -> bool) (s : list Z) : list Z :=
  match s with
  | [] => []
  | b :: s' => if f b then drop_while f s' else s
  end.

Definition growable_string_trim_trailing_whitespace (s : list Z) : list Z :=
  rev (drop_while isspace (rev s)).

(** ** The engine *)

Section Chat.

(** Whether the platform's plain [char] is signed (x86-64 SysV, AArch64
    Darwin) or unsigned (AArch64 / ARM Linux, Android). *)
Variable char_signed : bool.

(** The [char] a byte becomes when stored in a [char] variable. *)
Definition to_char (b : Z) : Z :=
  if char_signed && (128 <=? b) then b - 256 else b.

Definition chat_die {A} : M A := die LostConnection.

(** [chat_getc]: [int c = getc(cc->from); if (c == EOF) chat_die();
    return c;] with the [char] return type. *)
Definition chat_getc : M Z :=
  c <- getc ;;
  match c with
  | None => chat_die
  | Some b => ret (to_char b)
  end.

Definition chat_expect (expected : Z) : M unit :=
  c <- chat_getc ;;
  if negb (c =? expected) then die (ExpectMismatch expected c) else ret tt.

Definition chat_expect_maybe (expected : Z) : M bool :=
  c <- chat_getc ;;
  if negb (c =? expected) then (ungetc c ;; ret false) else ret true.

(** *** chat_swallow_prompt *)

Inductive sstate := S_NORMAL | S_AFTER_ESC | S_AFTER_CSI.

(** The scanner's locals: [state], [csi_arg] (an [unsigned]) and the
    [pre_prompt] growable string. *)
Record scanner := mk_scanner { state : sstate; csi_arg : Z; pre_prompt : list Z }.

Definition scanner_init : scanner := mk_scanner S_NORMAL 0 [].

(** Output operations performed by one pass through the [switch]. *)
Inductive out_op := OFputs (s : list Z) | OFflush.

Definition run_ops (o : outfile) (ops : list out_op) : outfile :=
  fold_left (fun o op => match op with
                         | OFputs s => out_fputs o (c_str s)
                         | OFflush => out_fflush o
                         end) ops o.

Definition UINT_MAX_1 : Z := 2 ^ 32.

(** The [switch (state)] of the scanner's loop body on the char [c]. *)
Definition scan_switch (sc : scanner) (c : Z) : scanner * list out_op :=
  match state sc with
  | S_NORMAL =>
      if c =? 27 then (mk_scanner S_AFTER_ESC (csi_arg sc) (pre_prompt sc), [])
      else (mk_scanner S_NORMAL (csi_arg sc) (pre_prompt sc ++ [c]), [])
  | S_AFTER_ESC =>
      if c =? 91 then (mk_scanner S_AFTER_CSI 0 (pre_prompt sc), [])
      else (mk_scanner S_NORMAL (csi_arg sc) (pre_prompt sc), [])
  | S_AFTER_CSI =>
      if (48 <=? c) && (c <=? 57) then
        (mk_scanner S_AFTER_CSI ((10 * csi_arg sc + (c - 48)) mod UINT_MAX_1)
                    (pre_prompt sc), [])
      else if c =? 110 then
        let ops :=
          if csi_arg sc =? 5 then [OFputs [27; 91; 48; 110]]
          else if csi_arg sc =? 6 then [OFputs [27; 91; 50; 53; 59; 56; 48; 82]]
          else [] in
        (mk_scanner S_NORMAL (csi_arg sc) (pre_prompt sc), ops ++ [OFflush])
      else (mk_scanner S_NORMAL (csi_arg sc) (pre_prompt sc), [])
  end.

(** The [for (;;)] loop: each iteration takes one byte with [getc], so it
    is structural on the inbound bytes.  At end-of-input it dies with the
    trimmed [pre_prompt] (printed with ["%s"], i.e. as a C string) or with
    [chat_die] when the trimmed string is empty; on [#] or [$] it breaks. *)
Fixpoint swallow_loop (sc : scanner) (inb : list Z) (o : outfile) : res unit :=
  match inb with
  | [] =>
      let pp := growable_string_trim_trailing_whitespace (pre_prompt sc) in
      if Nat.eqb (length pp) 0 then Died LostConnection (mk_chat [] o)
      else Died (PrePromptText (c_str pp)) (mk_chat [] o)
  | b :: inb' =>
      let c := to_char b in
      if (c =? 35) || (c =? 36) then Ok tt (mk_chat inb' o)
      else let '(sc', ops) := scan_switch sc c in
           swallow_loop sc' inb' (run_ops o ops)
  end.

Definition chat_swallow_prompt : M unit :=
  (fun cc => swallow_loop scanner_init (from cc) (to cc)) ;;
  chat_expect 32.

(** *** chat_talk_at

    [swallow] is [(flags & CHAT_SWALLOW_PROMPT) != 0]; [what] is the
    command as a C string (its bytes; a NUL ends it). *)

(** [while ( *what) chat_expect(cc, *what++);] *)
Fixpoint expect_echo (what : list Z) : M unit :=
  match what with
  | [] => ret tt
  | b :: what' => if b =? 0 then ret tt else chat_expect (to_char b) ;; expect_echo what'
  end.

(** The busybox [ESC [6n] race: returns the part of [what] still to be
    echoed. *)
Definition talk_race (swallow : bool) (what : list Z) : M (list Z) :=
  match what with
  | b :: what' =>
      if swallow && negb (b =? 0) then
        matched <- chat_expect_maybe (to_char b) ;;
        if matched then ret what'
        else (esc <- chat_expect_maybe 27 ;;
              if esc then chat_expect 91 ;; chat_expect 54 ;; chat_expect 110 ;; ret what
              else ret what)
      else ret what
  | [] => ret what
  end.

Definition chat_talk_at (swallow : bool) (what : list Z) : M unit :=
  (if swallow then chat_swallow_prompt else ret tt) ;;
  fputs what ;;
  putc 10 ;;
  fflush ;;
  rest <- talk_race swallow what ;;
  expect_echo rest ;;
  chat_expect 13 ;;
  chat_expect_maybe 13 ;;
  chat_expect 10.

End Chat.

(** ** Auxiliary definitions for the statements *)

(** The scanner's locals after its loop body ran on the bytes [p]
    (none of which is a prompt char), together with the outbound stream. *)
Fixpoint scan_bytes (cs : bool) (sc : scanner) (o : outfile) (p : list Z)
  : scanner * outfile :=
  match p with
  | [] => (sc, o)
  | b :: p' => let '(sc', ops) := scan_switch sc (to_char cs b) in
               scan_bytes cs sc' (run_ops o ops) p'
  end.

(** A byte that is not a shell prompt char. *)
Definition plain_byte (b : Z) : Prop := 0 <= b < 256 /\ b <> 35 /\ b <> 36.

(** Decimal value of a string of ASCII digits. *)
Definition decimal_value (ds : list Z) : Z :=
  fold_left (fun acc d => 10 * acc + (d - 48)) ds 0.

(** ** Basic lemmas *)

Lemma c_str_no_nul (w : list Z) : ~ In 0 w -> c_str w = w.
Proof.
  induction w as [|b w IH]; intro H; [reflexivity|]; simpl.
  destruct (Z.eqb_spec b 0) as [->|Hb]; [exfalso; apply H; left; reflexivity|].
  rewrite IH; [reflexivity|]. intro Hin; apply H; right; exact Hin.
Qed.

Lemma chat_expect_same (cs : bool) (b : Z) (r : list Z) (o : outfile) :
  chat_expect cs (to_char cs b) (mk_chat (b :: r) o) = Ok tt (mk_chat r o).
Proof.
  unfold chat_expect, chat_getc, bind, getc, ret; simpl.
  rewrite Z.eqb_refl; reflexivity.
Qed.

Lemma expect_echo_ok (cs : bool) (w r : list Z) (o : outfile) :
  ~ In 0 w -> expect_echo cs w (mk_chat (w ++ r) o) = Ok tt (mk_chat r o).
Proof.
  induction w as [|b w IH]; intro H; [reflexivity|]; simpl.
  destruct (Z.eqb_spec b 0) as [->|Hb]; [exfalso; apply H; left; reflexivity|].
  unfold bind at 1; rewrite chat_expect_same.
  apply IH; intro Hin; apply H; right; exact Hin.
Qed.

Lemma to_char_range (cs : bool) (b : Z) :
  0 <= b < 256 -> to_char cs b = b \/ (to_char cs b = b - 256 /\ 128 <= b).
Proof.
  intro Hb; unfold to_char.
  destruct cs; simpl; [|left; reflexivity].
  destruct (Z.leb_spec 128 b); [right; lia | left; reflexivity].
Qed.

Lemma to_char_small (cs : bool) (b : Z) : 0 <= b < 128 -> to_char cs b = b.
Proof.
  intro Hb; unfold to_char; destruct cs; simpl; [|reflexivity].
  destruct (Z.leb_spec 128 b); [lia | reflexivity].
Qed.

Lemma talk_race_noswallow (cs : bool) (what : list Z) :
  talk_race cs false what = ret what.
Proof. destruct what; reflexivity. Qed.

(** ** C1: talk without prompt swallowing *)

(** C1: for a command [what] (a C string: no NUL byte inside), [chat_talk_at]
    without the swallow-prompt flag, against an inbound stream that begins
    with the echo [what ++ "\r\n"], returns normally and leaves the inbound
    stream right after the ["\n"]; the command and a newline have been
    written and flushed.  (No hypothesis about newlines in [what] is
    needed.) *)
Theorem talk_echo_crlf (cs : bool) (what rest : list Z) (o : outfile)
  (Hnul : ~ In 0 what) :
  chat_talk_at cs false what (mk_chat (what ++ [13; 10] ++ rest) o)
  = Ok tt (mk_chat rest (mk_outfile (sent o ++ pending o ++ what ++ [10]) [])).
Proof.
  unfold chat_talk_at; rewrite talk_race_noswallow.
  cbv [bind ret fputs putc fflush from to].
  rewrite (c_str_no_nul what Hnul).
  cbv [out_fputs out_fflush sent pending].
  rewrite expect_echo_ok by exact Hnul.
  cbv [chat_expect_maybe chat_expect chat_getc bind getc ret ungetc from to].
  destruct o as [s0 p0]; destruct cs; simpl; rewrite <- !app_assoc; reflexivity.
Qed.

Lemma talk_echo_crlf_witness :
  ~ In 0 [108; 115] /\
  chat_talk_at true false [108; 115] (mk_chat ([108; 115] ++ [13; 10] ++ [1]) (mk_outfile [] []))
  = Ok tt (mk_chat [1] (mk_outfile ([] ++ [] ++ [108; 115] ++ [10]) [])).
Proof.
  split; [simpl; intuition discriminate|].
  apply (talk_echo_crlf true [108; 115] [1] (mk_outfile [] [])).
  simpl; intuition discriminate.
Defined.

(** ** The recoverable read primitive *)

Definition out0 : outfile := mk_outfile [] [].

(** C9: at end-of-input [chat_expect_maybe] does not return [false]: it
    dies with "lost connection to child", whatever byte is expected. *)
Theorem expect_maybe_eof_dies (cs : bool) (expected : Z) (o : outfile) :
  chat_expect_maybe cs expected (mk_chat [] o) = Died LostConnection (mk_chat [] o).
Proof. reflexivity. Qed.

(** When the byte read is not 0xFF, or [char] is unsigned, a mismatching
    byte is pushed back and read again next. *)
Lemma expect_maybe_mismatch_unread (cs : bool) (expected b : Z) (r : list Z) (o : outfile) :
  0 <= b < 256 -> (cs = false \/ b <> 255) -> to_char cs b <> expected ->
  chat_expect_maybe cs expected (mk_chat (b :: r) o) = Ok false (mk_chat (b :: r) o).
Proof.
  intros Hb Hff Hne.
  cbv [chat_expect_maybe chat_getc bind getc ret ungetc from to].
  destruct (Z.eqb_spec (to_char cs b) expected) as [E|_]; [contradiction|]; simpl.
  destruct (to_char_range cs b Hb) as [E|[E Hhi]]; rewrite E.
  - destruct (Z.eqb_spec b EOF); [unfold EOF in *; lia|].
    change 255 with (Z.ones 8); rewrite Z.land_ones by lia.
    rewrite Z.mod_small by lia; reflexivity.
  - destruct Hff as [->|Hff]; [unfold to_char in E; simpl in E; lia|].
    destruct (Z.eqb_spec (b - 256) EOF); [unfold EOF in *; lia|].
    replace (Z.land (b - 256) 255) with b; [reflexivity|].
    change 255 with (Z.ones 8); rewrite Z.land_ones by lia.
    rewrite Zminus_mod, Z_mod_same_full, Z.sub_0_r, Z.mod_mod by lia.
    rewrite Z.mod_small; lia.
Qed.

Lemma expect_maybe_match (cs : bool) (b : Z) (r : list Z) (o : outfile) :
  chat_expect_maybe cs (to_char cs b) (mk_chat (b :: r) o) = Ok true (mk_chat r o).
Proof.
  cbv [chat_expect_maybe chat_getc bind getc ret from to].
  rewrite Z.eqb_refl; reflexivity.
Qed.

(** C7 (defect): with a signed [char], [chat_getc] turns the byte 0xFF
    into [(char) -1 == EOF]; [ungetc(EOF, ...)] fails, so on a mismatch
    the byte is lost instead of pushed back: the next read returns the
    byte after it. *)
Theorem expect_maybe_loses_ff :
  chat_expect_maybe true 97 (mk_chat [255; 98] out0) = Ok false (mk_chat [98] out0).
Proof. reflexivity. Qed.

(** ** The line ending after the echo *)

(** C6 (defect, same cause as C7): with a signed [char], the optional
    second ["\r"] check swallows a 0xFF byte, so ["ls"] echoed as
    ["ls\r\xff\n"] is accepted. *)
Theorem talk_accepts_cr_ff_lf :
  chat_talk_at true false [108; 115] (mk_chat [108; 115; 13; 255; 10] out0)
  = Ok tt (mk_chat [] (mk_outfile [108; 115; 10] [])).
Proof. reflexivity. Qed.

(** ** The busybox [ESC [6n] race *)

(** When the prompt has been swallowed and the child sends [ESC [6n]
    before the echo, [chat_talk_at] consumes those four bytes, writes no
    reply and checks the whole echo from its first byte. *)
Lemma talk_absorbs_dsr_race (cs : bool) (b : Z) (w rest : list Z) (cc : chat) (o : outfile)
  (Hb : 0 <= b < 256) (Hesc : b <> 27) (Hnul : ~ In 0 (b :: w))
  (Hsw : chat_swallow_prompt cs cc
         = Ok tt (mk_chat ([27; 91; 54; 110] ++ (b :: w) ++ [13; 10] ++ rest) o)) :
  chat_talk_at cs true (b :: w) cc
  = Ok tt (mk_chat rest (mk_outfile (sent o ++ pending o ++ (b :: w) ++ [10]) [])).
Proof.
  unfold chat_talk_at. unfold bind at 1. rewrite Hsw.
  assert (Hb0 : (b =? 0) = false) by (apply Z.eqb_neq; intro; apply Hnul; left; auto).
  destruct o as [s0 p0].
  cbv [bind ret fputs putc fflush from to out_fputs out_fflush sent pending
       talk_race andb negb].
  rewrite (c_str_no_nul (b :: w) Hnul), Hb0.
  cbn [app].
  rewrite (expect_maybe_mismatch_unread cs (to_char cs b) 27); [| lia | right; lia |].
  2:{ rewrite (to_char_small cs 27) by lia.
      destruct (to_char_range cs b Hb) as [->|[-> _]]; lia. }
  rewrite <- (to_char_small cs 27) at 1 by lia. rewrite expect_maybe_match.
  rewrite <- (to_char_small cs 91) at 1 by lia. rewrite chat_expect_same.
  rewrite <- (to_char_small cs 54) at 1 by lia. rewrite chat_expect_same.
  rewrite <- (to_char_small cs 110) at 1 by lia. rewrite chat_expect_same.
  change (b :: w ++ 13 :: 10 :: rest) with ((b :: w) ++ [13; 10] ++ rest).
  rewrite expect_echo_ok by exact Hnul.
  cbv [chat_expect_maybe chat_expect chat_getc bind getc ret ungetc from to].
  destruct cs; simpl; rewrite <- !app_assoc; reflexivity.
Qed.

(** C2 (defect, same cause as C7): with a signed [char], a first echoed
    byte 0xFF that is neither the command's first byte nor ESC is not
    fatal: it is dropped, and the echo of ["ls"] after it is accepted. *)
Theorem talk_race_drops_ff :
  chat_talk_at true true [108; 115] (mk_chat [36; 32; 255; 108; 115; 13; 10] out0)
  = Ok tt (mk_chat [] (mk_outfile [108; 115; 10] [])).
Proof. reflexivity. Qed.

(** ** The prompt scanner *)

Lemma to_char_plain (cs : bool) (b : Z) :
  plain_byte b -> ((to_char cs b =? 35) || (to_char cs b =? 36)) = false.
Proof.
  intros [Hr [H35 H36]].
  destruct (to_char_range cs b Hr) as [->|[-> _]];
    apply orb_false_iff; split; apply Z.eqb_neq; lia.
Qed.

(** Running the loop over bytes that are not prompt chars. *)
Lemma swallow_loop_app (cs : bool) (p inb : list Z) :
  Forall plain_byte p ->
  forall sc o, swallow_loop cs sc (p ++ inb) o
               = let '(sc', o') := scan_bytes cs sc o p in swallow_loop cs sc' inb o'.
Proof.
  induction 1 as [|b p Hb Hp IH]; intros sc o; [reflexivity|].
  simpl. rewrite (to_char_plain cs b Hb).
  destruct (scan_switch sc (to_char cs b)) as [sc' ops]. apply IH.
Qed.

(** C3: a CSI sequence ended by [n]: argument 5 is answered with
    [ESC [0n], argument 6 with [ESC [25;80R], any other argument with
    nothing; in each case the outbound stream is flushed and the scanner
    goes back to NORMAL. *)
Theorem scanner_dsr_reply (cs : bool) (sc : scanner) (inb : list Z) (o : outfile)
  (Hst : state sc = S_AFTER_CSI) :
  let sc' := mk_scanner S_NORMAL (csi_arg sc) (pre_prompt sc) in
  (csi_arg sc = 5 ->
   swallow_loop cs sc (110 :: inb) o
   = swallow_loop cs sc' inb (mk_outfile (sent o ++ pending o ++ [27; 91; 48; 110]) [])) /\
  (csi_arg sc = 6 ->
   swallow_loop cs sc (110 :: inb) o
   = swallow_loop cs sc' inb
       (mk_outfile (sent o ++ pending o ++ [27; 91; 50; 53; 59; 56; 48; 82]) [])) /\
  (csi_arg sc <> 5 -> csi_arg sc <> 6 ->
   swallow_loop cs sc (110 :: inb) o
   = swallow_loop cs sc' inb (mk_outfile (sent o ++ pending o) [])).
Proof.
  destruct sc as [st a pp]; simpl in Hst; subst st; simpl.
  rewrite (to_char_small cs 110) by lia; simpl.
  destruct o as [s0 p0]; simpl.
  split; [|split].
  - intros ->; cbv [run_ops fold_left out_fflush out_fputs sent pending]; simpl.
    rewrite !app_assoc; reflexivity.
  - intros ->; cbv [run_ops fold_left out_fflush out_fputs sent pending]; simpl.
    rewrite !app_assoc; reflexivity.
  - intros H5 H6.
    destruct (Z.eqb_spec a 5); [contradiction|].
    destruct (Z.eqb_spec a 6); [contradiction|].
    cbv [run_ops fold_left out_fflush out_fputs sent pending]; simpl.
    rewrite ?app_nil_r; reflexivity.
Qed.

Lemma scanner_dsr_reply_witness :
  state (mk_scanner S_AFTER_CSI 5 []) = S_AFTER_CSI /\
  swallow_loop false (mk_scanner S_AFTER_CSI 5 []) (110 :: [36; 32]) out0
  = swallow_loop false (mk_scanner S_NORMAL 5 []) [36; 32]
      (mk_outfile (sent out0 ++ pending out0 ++ [27; 91; 48; 110]) []).
Proof.
  split; [reflexivity|].
  apply (proj1 (scanner_dsr_reply false (mk_scanner S_AFTER_CSI 5 []) [36; 32] out0
                  eq_refl)).
  reflexivity.
Defined.

(** C4: a [#] or [$] ends the scan loop whatever the scanner's state;
    [chat_swallow_prompt] then requires the next byte to be a space:
    it returns after consuming it, and dies on any other byte or at
    end-of-input. *)
Theorem prompt_char_then_space (cs : bool) (p rest : list Z) (b : Z) (o : outfile)
  (Hp : Forall plain_byte p) (Hb : b = 35 \/ b = 36) :
  let o' := snd (scan_bytes cs scanner_init o p) in
  (forall sc o1, swallow_loop cs sc (b :: rest) o1 = Ok tt (mk_chat rest o1)) /\
  chat_swallow_prompt cs (mk_chat (p ++ b :: rest) o) = chat_expect cs 32 (mk_chat rest o') /\
  (forall r, rest = 32 :: r -> chat_expect cs 32 (mk_chat rest o') = Ok tt (mk_chat r o')) /\
  (forall c r, rest = c :: r -> 0 <= c < 256 -> c <> 32 ->
     chat_expect cs 32 (mk_chat rest o') = Died (ExpectMismatch 32 (to_char cs c)) (mk_chat r o')) /\
  (rest = [] -> chat_expect cs 32 (mk_chat rest o') = Died LostConnection (mk_chat [] o')).
Proof.
  assert (Hloop : forall sc o1, swallow_loop cs sc (b :: rest) o1 = Ok tt (mk_chat rest o1)).
  { intros sc o1; simpl.
    destruct Hb as [->| ->]; rewrite (to_char_small cs) by lia; reflexivity. }
  simpl. split; [exact Hloop|]. split.
  - unfold chat_swallow_prompt, bind; simpl from; simpl to.
    rewrite (swallow_loop_app cs p (b :: rest) Hp scanner_init o).
    destruct (scan_bytes cs scanner_init o p) as [sc' o'].
    change (match swallow_loop cs sc' (b :: rest) o' with
            | Ok _ cc' => chat_expect cs 32 cc'
            | Died e cc' => Died e cc'
            end = chat_expect cs 32 (mk_chat rest o')).
    rewrite Hloop; reflexivity.
  - split; [|split].
    + intros r ->. rewrite <- (to_char_small cs 32) at 1 by lia. apply chat_expect_same.
    + intros c r -> Hc H32.
      cbv [chat_expect chat_getc bind getc ret die from to].
      destruct (Z.eqb_spec (to_char cs c) 32) as [E|E]; [|reflexivity].
      exfalso; destruct (to_char_range cs c Hc) as [E'|[E' _]]; lia.
    + intros ->; reflexivity.
Qed.

Lemma prompt_char_then_space_witness :
  Forall plain_byte [97] /\ (36 = 35 \/ 36 = 36) /\
  chat_swallow_prompt true (mk_chat ([97] ++ 36 :: [32]) out0)
  = chat_expect true 32 (mk_chat [32] (snd (scan_bytes true scanner_init out0 [97]))).
Proof.
  assert (Hp : Forall plain_byte [97]) by (repeat constructor; lia).
  split; [exact Hp|]. split; [right; reflexivity|].
  exact (proj1 (proj2 (prompt_char_then_space true [97] [32] 36 out0 Hp (or_intror eq_refl)))).
Defined.

(** C5 (as the code has it): when the inbound stream ends before any
    prompt char, [chat_swallow_prompt] dies; with [pp] the accumulated
    [pre_prompt] with trailing whitespace trimmed, the diagnostic is the
    lost-connection message when [pp] is empty, and otherwise [pp] as
    printed by ["%s"]: its bytes before the first NUL, i.e. all of [pp]
    when it holds no NUL byte. *)
Theorem eof_before_prompt_diag (cs : bool) (p : list Z) (o : outfile)
  (Hp : Forall plain_byte p) :
  let sc := fst (scan_bytes cs scanner_init o p) in
  let o' := snd (scan_bytes cs scanner_init o p) in
  let pp := growable_string_trim_trailing_whitespace (pre_prompt sc) in
  (pp = [] -> chat_swallow_prompt cs (mk_chat p o) = Died LostConnection (mk_chat [] o')) /\
  (pp <> [] ->
   chat_swallow_prompt cs (mk_chat p o) = Died (PrePromptText (c_str pp)) (mk_chat [] o')) /\
  (pp <> [] -> ~ In 0 pp ->
   chat_swallow_prompt cs (mk_chat p o) = Died (PrePromptText pp) (mk_chat [] o')).
Proof.
  assert (Hrun : chat_swallow_prompt cs (mk_chat p o)
                 = let '(sc, o') := scan_bytes cs scanner_init o p in
                   match swallow_loop cs sc [] o' with
                   | Ok _ cc' => chat_expect cs 32 cc'
                   | Died e cc' => Died e cc'
                   end).
  { unfold chat_swallow_prompt, bind; simpl from; simpl to.
    rewrite <- (app_nil_r p) at 1.
    rewrite (swallow_loop_app cs p [] Hp scanner_init o).
    destruct (scan_bytes cs scanner_init o p) as [sc o']; reflexivity. }
  rewrite Hrun. destruct (scan_bytes cs scanner_init o p) as [sc o'].
  cbn [fst snd swallow_loop].
  set (pp := growable_string_trim_trailing_whitespace (pre_prompt sc)).
  split; [|split].
  - intros ->; reflexivity.
  - intros Hne. destruct pp as [|x xs]; [contradiction|reflexivity].
  - intros Hne Hnul.
    transitivity (@Died unit (PrePromptText (c_str pp)) (mk_chat [] o')).
    + destruct pp as [|x xs]; [contradiction|reflexivity].
    + rewrite (c_str_no_nul pp Hnul); reflexivity.
Qed.

Lemma eof_before_prompt_diag_witness :
  Forall plain_byte [98; 32] /\
  (growable_string_trim_trailing_whitespace
     (pre_prompt (fst (scan_bytes false scanner_init out0 [98; 32]))) <> [] ->
   ~ In 0 (growable_string_trim_trailing_whitespace
             (pre_prompt (fst (scan_bytes false scanner_init out0 [98; 32])))) ->
   chat_swallow_prompt false (mk_chat [98; 32] out0)
   = Died (PrePromptText (growable_string_trim_trailing_whitespace
             (pre_prompt (fst (scan_bytes false scanner_init out0 [98; 32])))))
          (mk_chat [] (snd (scan_bytes false scanner_init out0 [98; 32])))).
Proof.
  assert (Hp : Forall plain_byte [98; 32]) by (repeat constructor; lia).
  split; [exact Hp|].
  exact (proj2 (proj2 (eof_before_prompt_diag false [98; 32] out0 Hp))).
Defined.

(** C5 fails as stated: the child's output ["a\000b"] is the trimmed
    [pre_prompt], but the diagnostic printed with ["%s"] is ["a"]. *)
Lemma eof_diag_stops_at_nul :
  (growable_string_trim_trailing_whitespace
     (pre_prompt (fst (scan_bytes false scanner_init out0 [97; 0; 98]))) = [97; 0; 98]) /\
  (chat_swallow_prompt false (mk_chat [97; 0; 98] out0)
   = Died (PrePromptText [97]) (mk_chat [] out0)) /\
  (chat_swallow_prompt false (mk_chat [97; 0; 98] out0)
   <> Died (PrePromptText (growable_string_trim_trailing_whitespace
              (pre_prompt (fst (scan_bytes false scanner_init out0 [97; 0; 98])))))
           (mk_chat [] out0)).
Proof. split; [reflexivity | split; [reflexivity | vm_compute; discriminate]]. Qed.

(** C8: in state AFTER_ESCAPE a byte other than [[] that is not a prompt
    char sends the scanner back to NORMAL and is not added to
    [pre_prompt] (a prompt char ends the loop, also without adding it);
    over any run, one loop iteration adds its char to [pre_prompt]
    exactly when the state is NORMAL and the char is not ESC. *)
Theorem after_esc_drops_byte (cs : bool) :
  (forall sc b inb o, state sc = S_AFTER_ESC -> 0 <= b < 256 -> b <> 91 ->
     swallow_loop cs sc (b :: inb) o
     = if (to_char cs b =? 35) || (to_char cs b =? 36) then Ok tt (mk_chat inb o)
       else swallow_loop cs (mk_scanner S_NORMAL (csi_arg sc) (pre_prompt sc)) inb o) /\
  (forall sc b inb o, plain_byte b ->
     swallow_loop cs sc (b :: inb) o
     = swallow_loop cs (fst (scan_switch sc (to_char cs b))) inb
                       (run_ops o (snd (scan_switch sc (to_char cs b)))) /\
     pre_prompt (fst (scan_switch sc (to_char cs b)))
     = match state sc with
       | S_NORMAL => if to_char cs b =? 27 then pre_prompt sc
                     else pre_prompt sc ++ [to_char cs b]
       | _ => pre_prompt sc
       end).
Proof.
  split.
  - intros [st a pp] b inb o Hst Hb H91; simpl in Hst; subst st; simpl.
    destruct ((to_char cs b =? 35) || (to_char cs b =? 36)); [reflexivity|].
    unfold scan_switch; simpl state.
    destruct (Z.eqb_spec (to_char cs b) 91) as [E|E]; [|reflexivity].
    exfalso; destruct (to_char_range cs b Hb) as [E'|[E' _]]; lia.
  - intros [st a pp] b inb o Hb; simpl.
    rewrite (to_char_plain cs b Hb).
    split; [destruct (scan_switch _ _); reflexivity|].
    destruct st; unfold scan_switch; simpl state.
    + destruct (to_char cs b =? 27); reflexivity.
    + destruct (to_char cs b =? 91); reflexivity.
    + destruct ((48 <=? to_char cs b) && (to_char cs b <=? 57)); [reflexivity|].
      destruct (to_char cs b =? 110); reflexivity.
Qed.

(** C10: the CSI argument is an [unsigned]: each digit maps [arg] to
    [(10 * arg + digit) mod 2^32]; so ["4294967301"] (2^32 + 5) is
    answered like [5] and ["4294967302"] (2^32 + 6) like [6]. *)
Theorem csi_arg_wraps (cs : bool) :
  (forall sc c, state sc = S_AFTER_CSI -> 48 <= c <= 57 ->
     scan_switch sc c
     = (mk_scanner S_AFTER_CSI ((10 * csi_arg sc + (c - 48)) mod 2 ^ 32) (pre_prompt sc), [])) /\
  (let ds := [52; 50; 57; 52; 57; 54; 55; 51; 48; 49] in
   decimal_value ds <> 5 /\ decimal_value ds mod 2 ^ 32 = 5 /\
   chat_swallow_prompt cs (mk_chat ([27; 91] ++ ds ++ [110; 36; 32]) out0)
   = Ok tt (mk_chat [] (mk_outfile [27; 91; 48; 110] []))) /\
  (let ds := [52; 50; 57; 52; 57; 54; 55; 51; 48; 50] in
   decimal_value ds <> 6 /\ decimal_value ds mod 2 ^ 32 = 6 /\
   chat_swallow_prompt cs (mk_chat ([27; 91] ++ ds ++ [110; 36; 32]) out0)
   = Ok tt (mk_chat [] (mk_outfile [27; 91; 50; 53; 59; 56; 48; 82] []))).
Proof.
  split; [|split].
  - intros [st a pp] c Hst Hc; simpl in Hst; subst st; unfold scan_switch; simpl.
    replace ((48 <=? c) && (c <=? 57)) with true; [reflexivity|].
    symmetry; apply andb_true_iff; split; apply Z.leb_le; lia.
  - destruct cs; vm_compute; (split; [discriminate | split; reflexivity]).
  - destruct cs; vm_compute; (split; [discriminate | split; reflexivity]).
Qed.

(** * Further properties of chat.c *)

(** The session a run ends in, normal or fatal. *)
Definition res_state {A} (r : res A) : chat :=
  match r with Ok _ cc => cc | Died _ cc => cc end.

(** [m] never touches the outbound stream. *)
Definition keeps_to {A} (m : M A) : Prop := forall cc, to (res_state (m cc)) = to cc.

Lemma bind_keeps_to {A B} (m : M A) (k : A -> M B) :
  keeps_to m -> (forall a, keeps_to (k a)) -> keeps_to (bind m k).
Proof.
  intros Hm Hk cc; unfold bind. specialize (Hm cc).
  destruct (m cc) as [a cc'|e cc']; simpl in *; [rewrite Hk|]; exact Hm.
Qed.

Lemma ret_keeps_to {A} (a : A) : keeps_to (ret a).
Proof. intro cc; reflexivity. Qed.

Lemma die_keeps_to {A} (e : fatal) : keeps_to (@die A e).
Proof. intro cc; reflexivity. Qed.

Lemma getc_keeps_to : keeps_to getc.
Proof. intros [[|b r] o]; reflexivity. Qed.

Lemma ungetc_keeps_to (c : Z) : keeps_to (ungetc c).
Proof. intro cc; unfold ungetc; destruct (c =? EOF); reflexivity. Qed.

Create HintDb keeps.
#[local] Hint Resolve bind_keeps_to ret_keeps_to die_keeps_to getc_keeps_to
  ungetc_keeps_to : keeps.

Lemma chat_getc_keeps_to (cs : bool) : keeps_to (chat_getc cs).
Proof.
  unfold chat_getc; apply bind_keeps_to; auto with keeps.
  intros [b|]; [apply ret_keeps_to | apply die_keeps_to].
Qed.
#[local] Hint Resolve chat_getc_keeps_to : keeps.

Lemma chat_expect_keeps_to (cs : bool) (e : Z) : keeps_to (chat_expect cs e).
Proof.
  unfold chat_expect; apply bind_keeps_to; auto with keeps.
  intro c; destruct (negb (c =? e)); auto with keeps.
Qed.
#[local] Hint Resolve chat_expect_keeps_to : keeps.

Lemma chat_expect_maybe_keeps_to (cs : bool) (e : Z) : keeps_to (chat_expect_maybe cs e).
Proof.
  unfold chat_expect_maybe; apply bind_keeps_to; auto with keeps.
  intro c; destruct (negb (c =? e)); auto with keeps.
Qed.
#[local] Hint Resolve chat_expect_maybe_keeps_to : keeps.

Lemma expect_echo_keeps_to (cs : bool) (w : list Z) : keeps_to (expect_echo cs w).
Proof.
  induction w as [|b w IH]; simpl; [auto with keeps|].
  destruct (b =? 0); auto with keeps.
Qed.
#[local] Hint Resolve expect_echo_keeps_to : keeps.

Lemma talk_race_keeps_to (cs swallow : bool) (w : list Z) : keeps_to (talk_race cs swallow w).
Proof.
  destruct w as [|b w]; simpl; [auto with keeps|].
  destruct (swallow && negb (b =? 0)); [|auto with keeps].
  apply bind_keeps_to; [auto with keeps|]; intros [|]; [auto with keeps|].
  apply bind_keeps_to; [auto with keeps|]; intros [|]; auto 10 with keeps.
Qed.
#[local] Hint Resolve talk_race_keeps_to : keeps.

(** X4: once the prompt (if asked for) has been swallowed, [chat_talk_at]
    writes the command (as a C string) and a newline and flushes, and
    writes nothing else: whatever the child echoes, and whether the echo
    check passes or dies, the outbound stream ends as exactly that. *)
Theorem talk_writes_only_command (cs swallow : bool) (what : list Z) (cc cc1 : chat)
  (Hpre : (if swallow then chat_swallow_prompt cs else ret tt) cc = Ok tt cc1) :
  to (res_state (chat_talk_at cs swallow what cc))
  = out_fflush (out_fputs (out_fputs (to cc1) (c_str what)) [10]).
Proof.
  unfold chat_talk_at. unfold bind at 1. rewrite Hpre.
  cbv [bind fputs putc fflush].
  set (cc2 := mk_chat (from cc1)
                (out_fflush (out_fputs (out_fputs (to cc1) (c_str what)) [10]))).
  change (out_fflush (out_fputs (out_fputs (to cc1) (c_str what)) [10])) with (to cc2).
  apply (bind_keeps_to (talk_race cs swallow what)
           (fun rest => expect_echo cs rest ;; chat_expect cs 13 ;;
                        chat_expect_maybe cs 13 ;; chat_expect cs 10));
    auto 10 with keeps.
Qed.

Lemma talk_writes_only_command_witness :
  ret tt (mk_chat [1] out0) = Ok tt (mk_chat [1] out0) /\
  to (res_state (chat_talk_at true false [108; 115] (mk_chat [1] out0)))
  = out_fflush (out_fputs (out_fputs (to (mk_chat [1] out0)) (c_str [108; 115])) [10]).
Proof.
  split; [reflexivity|].
  exact (talk_writes_only_command true false [108; 115] (mk_chat [1] out0)
           (mk_chat [1] out0) eq_refl).
Defined.

Lemma to_char_inj (cs : bool) (x y : Z) :
  0 <= x < 256 -> 0 <= y < 256 -> to_char cs x = to_char cs y -> x = y.
Proof.
  intros Hx Hy E.
  destruct (to_char_range cs x Hx) as [Ex|[Ex Hx']];
  destruct (to_char_range cs y Hy) as [Ey|[Ey Hy']]; lia.
Qed.

Lemma talk_race_echoed (cs swallow : bool) (what r : list Z) (o : outfile) :
  ~ In 0 what ->
  exists w', talk_race cs swallow what (mk_chat (what ++ r) o) = Ok w' (mk_chat (w' ++ r) o)
             /\ ~ In 0 w'.
Proof.
  intro Hnul. destruct what as [|b w]; [exists []; split; [reflexivity | exact Hnul]|].
  assert (Hb0 : (b =? 0) = false) by (apply Z.eqb_neq; intro; apply Hnul; left; auto).
  destruct swallow.
  - exists w. unfold talk_race; rewrite Hb0; cbv [andb negb].
    unfold bind at 1. simpl app. rewrite expect_maybe_match.
    split; [reflexivity|]. intro Hin; apply Hnul; right; exact Hin.
  - exists (b :: w). unfold talk_race; simpl andb. split; [reflexivity | exact Hnul].
Qed.

(** The line-ending check after the echo. *)
Lemma line_end_ok (cs : bool) (term rest : list Z) (o : outfile) :
  term = [13; 10] \/ term = [13; 13; 10] ->
  (chat_expect cs 13 ;; chat_expect_maybe cs 13 ;; chat_expect cs 10) (mk_chat (term ++ rest) o)
  = Ok tt (mk_chat rest o).
Proof.
  intros [-> | ->]; destruct cs;
    cbv [chat_expect_maybe chat_expect chat_getc bind getc ret ungetc from to to_char];
    reflexivity.
Qed.

Lemma talk_echo_accepts (cs swallow : bool) (what term rest : list Z) (cc : chat) (o : outfile)
  (Hnul : ~ In 0 what) (Hterm : term = [13; 10] \/ term = [13; 13; 10])
  (Hpre : (if swallow then chat_swallow_prompt cs else ret tt) cc
          = Ok tt (mk_chat (what ++ term ++ rest) o)) :
  chat_talk_at cs swallow what cc
  = Ok tt (mk_chat rest (mk_outfile (sent o ++ pending o ++ what ++ [10]) [])).
Proof.
  unfold chat_talk_at. unfold bind at 1. rewrite Hpre.
  cbv [bind fputs putc fflush from to].
  rewrite (c_str_no_nul what Hnul).
  destruct (talk_race_echoed cs swallow what (term ++ rest)
              (out_fflush (out_fputs (out_fputs o what) [10])) Hnul) as [w' [Hr Hw']].
  rewrite Hr. rewrite expect_echo_ok by exact Hw'.
  pose proof (line_end_ok cs term rest (out_fflush (out_fputs (out_fputs o what) [10])) Hterm)
    as Hl.
  unfold bind in Hl. rewrite Hl.
  destruct o as [s0 p0]; cbv [out_fflush out_fputs sent pending].
  rewrite <- !app_assoc; reflexivity.
Qed.

(** X5: with or without prompt swallowing, when the inbound stream after
    the prompt (if any) is the command's echo followed by ["\r\n"] or
    ["\r\r\n"], [chat_talk_at] returns normally, consumes exactly the echo
    and its line ending, and has written the command and a newline. *)
Theorem talk_echo_ok (cs swallow : bool) (what term rest : list Z) (cc : chat) (o : outfile)
  (Hnul : ~ In 0 what) (Hterm : term = [13; 10] \/ term = [13; 13; 10])
  (Hpre : (if swallow then chat_swallow_prompt cs else ret tt) cc
          = Ok tt (mk_chat (what ++ term ++ rest) o)) :
  chat_talk_at cs swallow what cc
  = Ok tt (mk_chat rest (mk_outfile (sent o ++ pending o ++ what ++ [10]) [])).
Proof. exact (talk_echo_accepts cs swallow what term rest cc o Hnul Hterm Hpre). Qed.

Lemma talk_echo_ok_witness :
  ~ In 0 [108; 115] /\ ([13; 13; 10] = [13; 10] \/ [13; 13; 10] = [13; 13; 10]) /\
  chat_talk_at false true [108; 115] (mk_chat [36; 32; 108; 115; 13; 13; 10] out0)
  = Ok tt (mk_chat [] (mk_outfile (sent out0 ++ pending out0 ++ [108; 115] ++ [10]) [])).
Proof.
  assert (Hn : ~ In 0 [108; 115]) by (simpl; intuition discriminate).
  split; [exact Hn|]. split; [right; reflexivity|].
  exact (talk_echo_ok false true [108; 115] [13; 13; 10] []
           (mk_chat [36; 32; 108; 115; 13; 13; 10] out0) out0 Hn (or_intror eq_refl) eq_refl).
Defined.

Lemma expect_echo_app (cs : bool) (pre w r : list Z) (o : outfile) :
  ~ In 0 pre -> expect_echo cs (pre ++ w) (mk_chat (pre ++ r) o) = expect_echo cs w (mk_chat r o).
Proof.
  induction pre as [|b pre IH]; intro H; [reflexivity|]; simpl.
  destruct (Z.eqb_spec b 0) as [->|Hb]; [exfalso; apply H; left; reflexivity|].
  unfold bind at 1; rewrite chat_expect_same.
  apply IH; intro Hin; apply H; right; exact Hin.
Qed.

(** X6: without prompt swallowing, if the child's echo agrees with the
    command on a prefix [pre] and then sends a byte [y] where the command
    has a different byte [x], [chat_talk_at] dies with a mismatch report
    naming [x] and [y], and has consumed nothing past [y]. *)
Theorem talk_echo_mismatch (cs : bool) (pre post rest : list Z) (x y : Z) (o : outfile)
  (Hpre : ~ In 0 pre) (Hx : 0 < x < 256) (Hy : 0 <= y < 256) (Hxy : x <> y) :
  chat_talk_at cs false (pre ++ x :: post) (mk_chat (pre ++ y :: rest) o)
  = Died (ExpectMismatch (to_char cs x) (to_char cs y))
         (mk_chat rest (mk_outfile (sent o ++ pending o ++ c_str (pre ++ x :: post) ++ [10]) [])).
Proof.
  unfold chat_talk_at. rewrite talk_race_noswallow.
  cbv [bind ret fputs putc fflush from to].
  rewrite expect_echo_app by exact Hpre.
  simpl expect_echo.
  assert (Hx0 : (x =? 0) = false) by (apply Z.eqb_neq; lia). rewrite Hx0.
  cbv [bind chat_expect chat_getc getc ret die from to].
  destruct (Z.eqb_spec (to_char cs y) (to_char cs x)) as [E|E].
  - exfalso; apply Hxy; symmetry; apply (to_char_inj cs y x); lia || exact E.
  - destruct o as [s0 p0]; cbv [out_fflush out_fputs sent pending negb].
    rewrite <- !app_assoc; reflexivity.
Qed.

Lemma talk_echo_mismatch_witness :
  ~ In 0 [108] /\ 0 < 115 < 256 /\ 0 <= 120 < 256 /\ 115 <> 120 /\
  chat_talk_at true false ([108] ++ 115 :: []) (mk_chat ([108] ++ 120 :: [13; 10]) out0)
  = Died (ExpectMismatch (to_char true 115) (to_char true 120))
         (mk_chat [13; 10] (mk_outfile (sent out0 ++ pending out0 ++
                                        c_str ([108] ++ 115 :: []) ++ [10]) [])).
Proof.
  assert (Hn : ~ In 0 [108]) by (simpl; intuition discriminate).
  split; [exact Hn|]. split; [lia|]. split; [lia|]. split; [lia|].
  apply (talk_echo_mismatch true [108] [] [13; 10] 115 120 out0 Hn); lia.
Defined.

(** ** The scanner as a whole *)

(** The two replies the scanner may send. *)
Definition dsr_ok_reply : list Z := [27; 91; 48; 110].
Definition dsr_cursor_reply : list Z := [27; 91; 50; 53; 59; 56; 48; 82].

Definition is_dsr_reply (r : list Z) : Prop := r = dsr_ok_reply \/ r = dsr_cursor_reply.

(** The outbound bytes: handed to the child or still buffered. *)
Definition out_bytes (o : outfile) : list Z := sent o ++ pending o.

Lemma scan_switch_writes (sc : scanner) (c : Z) (o : outfile) :
  exists rs, Forall is_dsr_reply rs /\
    out_bytes (run_ops o (snd (scan_switch sc c))) = out_bytes o ++ concat rs.
Proof.
  destruct o as [s0 p0]; destruct sc as [st a pp]; unfold scan_switch, out_bytes;
    destruct st; simpl;
    repeat match goal with |- context [if ?b then _ else _] => destruct b end;
    simpl;
    first
      [ exists []; split; [constructor | simpl; rewrite ?app_nil_r; reflexivity]
      | exists [dsr_ok_reply]; split;
          [repeat constructor; left; reflexivity
          | cbv [dsr_ok_reply concat]; rewrite <- !app_assoc; reflexivity]
      | exists [dsr_cursor_reply]; split;
          [repeat constructor; right; reflexivity
          | cbv [dsr_cursor_reply concat]; rewrite <- !app_assoc; reflexivity] ].
Qed.

Lemma swallow_loop_writes (cs : bool) (inb : list Z) :
  forall sc o, exists rs, Forall is_dsr_reply rs /\
    out_bytes (to (res_state (swallow_loop cs sc inb o))) = out_bytes o ++ concat rs.
Proof.
  induction inb as [|b inb IH]; intros sc o.
  - exists []; split; [constructor|]; simpl.
    destruct (Nat.eqb _ 0); simpl; rewrite app_nil_r; reflexivity.
  - simpl. destruct ((to_char cs b =? 35) || (to_char cs b =? 36)).
    + exists []; split; [constructor | simpl; rewrite app_nil_r; reflexivity].
    + destruct (scan_switch_writes sc (to_char cs b) o) as [rs1 [H1 E1]].
      destruct (scan_switch sc (to_char cs b)) as [sc' ops] eqn:Esw; simpl in E1.
      destruct (IH sc' (run_ops o ops)) as [rs2 [H2 E2]].
      exists (rs1 ++ rs2); split; [apply Forall_app; split; assumption|].
      rewrite E2, E1, concat_app, app_assoc; reflexivity.
Qed.

(** X1: whatever the child sends, the only bytes [chat_swallow_prompt]
    ever writes to the outbound stream are whole status replies
    [ESC [0n] and [ESC [25;80R], one after another, whether it returns or
    dies. *)
Theorem swallow_prompt_writes_only_replies (cs : bool) (cc : chat) :
  exists rs, Forall is_dsr_reply rs /\
    out_bytes (to (res_state (chat_swallow_prompt cs cc))) = out_bytes (to cc) ++ concat rs.
Proof.
  destruct (swallow_loop_writes cs (from cc) scanner_init (to cc)) as [rs [Hrs E]].
  exists rs; split; [exact Hrs|].
  unfold chat_swallow_prompt, bind.
  destruct (swallow_loop cs scanner_init (from cc) (to cc)) as [u cc'|e cc'] eqn:Eloop;
    simpl in E |- *; [|exact E].
  rewrite (chat_expect_keeps_to cs 32 cc'). exact E.
Qed.

(** The reply to [ESC [<n> n]. *)
Definition dsr_reply (n : Z) : list Z :=
  if n =? 5 then dsr_ok_reply else if n =? 6 then dsr_cursor_reply else [].

Definition is_digit (d : Z) : Prop := 48 <= d <= 57.

Lemma digit_step_mod (a d m : Z) :
  m <> 0 -> (10 * (a mod m) + (d - 48)) mod m = (10 * a + (d - 48)) mod m.
Proof.
  intro Hm. rewrite Z.add_mod, Z.mul_mod, Z.mod_mod by exact Hm.
  rewrite <- Z.mul_mod, <- Z.add_mod by exact Hm. reflexivity.
Qed.

Lemma fold_digits_mod (ds : list Z) (a : Z) :
  fold_left (fun a d => (10 * a + (d - 48)) mod UINT_MAX_1) ds (a mod UINT_MAX_1)
  = (fold_left (fun a d => 10 * a + (d - 48)) ds a) mod UINT_MAX_1.
Proof.
  revert a; induction ds as [|d ds IH]; intro a; [reflexivity|]; cbn [fold_left].
  rewrite digit_step_mod by (unfold UINT_MAX_1; lia). apply IH.
Qed.

Lemma swallow_loop_digits (cs : bool) (ds inb : list Z) (pp : list Z) (o : outfile) :
  Forall is_digit ds ->
  forall a, swallow_loop cs (mk_scanner S_AFTER_CSI a pp) (ds ++ inb) o
  = swallow_loop cs
      (mk_scanner S_AFTER_CSI
         (fold_left (fun a d => (10 * a + (d - 48)) mod UINT_MAX_1) ds a) pp) inb o.
Proof.
  induction 1 as [|d ds Hd Hds IH]; intro a; [reflexivity|].
  unfold is_digit in Hd. simpl.
  rewrite (to_char_small cs d) by lia.
  replace ((d =? 35) || (d =? 36)) with false
    by (symmetry; apply orb_false_iff; split; apply Z.eqb_neq; lia).
  unfold scan_switch; simpl state.
  replace ((48 <=? d) && (d <=? 57)) with true
    by (symmetry; apply andb_true_iff; split; apply Z.leb_le; lia).
  apply IH.
Qed.

Lemma swallow_loop_csi_intro (cs : bool) (a : Z) (pp r : list Z) (o : outfile) :
  swallow_loop cs (mk_scanner S_NORMAL a pp) (27 :: 91 :: r) o
  = swallow_loop cs (mk_scanner S_AFTER_CSI 0 pp) r o.
Proof. destruct cs; reflexivity. Qed.

Lemma swallow_loop_csi_n (cs : bool) (n : Z) (pp inb : list Z) (o : outfile) :
  swallow_loop cs (mk_scanner S_AFTER_CSI n pp) (110 :: inb) o
  = swallow_loop cs (mk_scanner S_NORMAL n pp) inb
      (mk_outfile (sent o ++ pending o ++ dsr_reply n) []).
Proof.
  destruct o as [s0 p0]; unfold dsr_reply; cbv [dsr_ok_reply dsr_cursor_reply].
  destruct cs; simpl;
    (destruct (n =? 5); [|destruct (n =? 6)]); simpl;
    rewrite ?app_nil_r, <- ?app_assoc; reflexivity.
Qed.

Lemma swallow_loop_csi_other (cs : bool) (n t : Z) (pp inb : list Z) (o : outfile) :
  0 <= t < 256 -> t <> 35 -> t <> 36 -> ~ is_digit t -> t <> 110 ->
  swallow_loop cs (mk_scanner S_AFTER_CSI n pp) (t :: inb) o
  = swallow_loop cs (mk_scanner S_NORMAL n pp) inb o.
Proof.
  intros Ht H35 H36 Hd H110. unfold is_digit in Hd.
  cbn [swallow_loop]. unfold scan_switch; cbn [state].
  destruct (to_char_range cs t Ht) as [E|[E _]]; rewrite E;
  (replace ((t =? 35) || (t =? 36)) with false
     by (symmetry; apply orb_false_iff; split; apply Z.eqb_neq; lia)) ||
  (replace ((t - 256 =? 35) || (t - 256 =? 36)) with false
     by (symmetry; apply orb_false_iff; split; apply Z.eqb_neq; lia));
  (replace ((48 <=? t) && (t <=? 57)) with false
     by (symmetry; apply andb_false_iff;
         destruct (Z.leb_spec 48 t); [right; apply Z.leb_gt; lia | left; reflexivity])) ||
  (replace ((48 <=? t - 256) && (t - 256 <=? 57)) with false
     by (symmetry; apply andb_false_iff; left; apply Z.leb_gt; lia));
  (replace (t =? 110) with false by (symmetry; apply Z.eqb_neq; lia)) ||
  (replace (t - 256 =? 110) with false by (symmetry; apply Z.eqb_neq; lia));
  reflexivity.
Qed.

Lemma decimal_value_fold (ds : list Z) :
  fold_left (fun a d => (10 * a + (d - 48)) mod UINT_MAX_1) ds 0
  = decimal_value ds mod UINT_MAX_1.
Proof. unfold decimal_value; rewrite <- fold_digits_mod; reflexivity. Qed.

(** X2: from state NORMAL, a CSI sequence [ESC [ <digits> n] leaves the
    scanner in NORMAL with [pre_prompt] unchanged, and appends to the
    outbound stream, flushed, the reply for the digits' decimal value
    modulo 2^32 ([ESC [0n] for 5, [ESC [25;80R] for 6, nothing else);
    ended by any other byte that is neither a digit nor a prompt char,
    the sequence is dropped: no output, no flush, [pre_prompt]
    unchanged. *)
Theorem csi_sequence (cs : bool) (sc : scanner) (ds inb : list Z) (o : outfile)
  (Hst : state sc = S_NORMAL) (Hds : Forall is_digit ds) :
  let n := decimal_value ds mod UINT_MAX_1 in
  swallow_loop cs sc (27 :: 91 :: ds ++ 110 :: inb) o
  = swallow_loop cs (mk_scanner S_NORMAL n (pre_prompt sc)) inb
      (mk_outfile (sent o ++ pending o ++ dsr_reply n) []) /\
  (forall t, 0 <= t < 256 -> t <> 35 -> t <> 36 -> ~ is_digit t -> t <> 110 ->
     swallow_loop cs sc (27 :: 91 :: ds ++ t :: inb) o
     = swallow_loop cs (mk_scanner S_NORMAL n (pre_prompt sc)) inb o).
Proof.
  destruct sc as [st a pp]; simpl in Hst; subst st; cbn zeta; cbn [pre_prompt].
  split.
  - rewrite swallow_loop_csi_intro, (swallow_loop_digits cs ds (110 :: inb) pp o Hds 0).
    rewrite decimal_value_fold. apply swallow_loop_csi_n.
  - intros t Ht H35 H36 Hd H110.
    rewrite swallow_loop_csi_intro, (swallow_loop_digits cs ds (t :: inb) pp o Hds 0).
    rewrite decimal_value_fold. apply swallow_loop_csi_other; assumption.
Qed.

Lemma csi_sequence_witness :
  state scanner_init = S_NORMAL /\ Forall is_digit [54] /\
  swallow_loop true scanner_init (27 :: 91 :: [54] ++ 110 :: [36; 32]) out0
  = swallow_loop true (mk_scanner S_NORMAL (decimal_value [54] mod UINT_MAX_1) [])
      [36; 32] (mk_outfile (sent out0 ++ pending out0 ++
                            dsr_reply (decimal_value [54] mod UINT_MAX_1)) []).
Proof.
  assert (Hd : Forall is_digit [54]) by (repeat constructor; unfold is_digit; lia).
  split; [reflexivity|]. split; [exact Hd|].
  exact (proj1 (csi_sequence true scanner_init [54] [36; 32] out0 eq_refl Hd)).
Defined.

Lemma swallow_loop_plain_text (cs : bool) (p r : list Z) :
  Forall (fun b => plain_byte b /\ b <> 27) p ->
  forall a pp o, swallow_loop cs (mk_scanner S_NORMAL a pp) (p ++ r) o
  = swallow_loop cs (mk_scanner S_NORMAL a (pp ++ map (to_char cs) p)) r o.
Proof.
  induction 1 as [|b p [Hb H27] Hp IH]; intros a pp o; [rewrite app_nil_r; reflexivity|].
  cbn [app swallow_loop]. rewrite (to_char_plain cs b Hb).
  unfold scan_switch; cbn [state csi_arg pre_prompt].
  replace (to_char cs b =? 27) with false.
  2:{ symmetry; apply Z.eqb_neq; destruct Hb as [Hr _].
      destruct (to_char_range cs b Hr) as [->|[-> _]]; lia. }
  rewrite IH, <- app_assoc; reflexivity.
Qed.

(** X3: [chat_swallow_prompt] on plain text (no ESC, no prompt char),
    then a status query [ESC [<digits> n], then a prompt char and a
    space, returns normally right after the space, having written and
    flushed exactly the reply for the query. *)
Theorem swallow_prompt_answers_query (cs : bool) (p ds rest : list Z) (q : Z) (o : outfile)
  (Hp : Forall (fun b => plain_byte b /\ b <> 27) p) (Hds : Forall is_digit ds)
  (Hq : q = 35 \/ q = 36) :
  chat_swallow_prompt cs (mk_chat (p ++ 27 :: 91 :: ds ++ 110 :: q :: 32 :: rest) o)
  = Ok tt (mk_chat rest (mk_outfile (sent o ++ pending o ++
                                     dsr_reply (decimal_value ds mod UINT_MAX_1)) [])).
Proof.
  unfold chat_swallow_prompt, bind, scanner_init, from, to.
  rewrite (swallow_loop_plain_text cs p (27 :: 91 :: ds ++ 110 :: q :: 32 :: rest) Hp 0 [] o).
  rewrite swallow_loop_csi_intro.
  rewrite (swallow_loop_digits cs ds (110 :: q :: 32 :: rest) _ o Hds 0).
  rewrite decimal_value_fold, swallow_loop_csi_n.
  cbn [swallow_loop].
  destruct Hq as [-> | ->]; rewrite (to_char_small cs) by lia; cbn;
    rewrite (to_char_small cs 32) by lia; reflexivity.
Qed.

Lemma swallow_prompt_answers_query_witness :
  Forall (fun b => plain_byte b /\ b <> 27) [104; 105] /\ Forall is_digit [54] /\
  (36 = 35 \/ 36 = 36) /\
  chat_swallow_prompt false (mk_chat ([104; 105] ++ 27 :: 91 :: [54] ++ 110 :: 36 :: 32 :: [])
                                     out0)
  = Ok tt (mk_chat [] (mk_outfile (sent out0 ++ pending out0 ++
                                   dsr_reply (decimal_value [54] mod UINT_MAX_1)) [])).
Proof.
  assert (Hp : Forall (fun b => plain_byte b /\ b <> 27) [104; 105])
    by (repeat constructor; unfold plain_byte; lia).
  assert (Hd : Forall is_digit [54]) by (repeat constructor; unfold is_digit; lia).
  split; [exact Hp|]. split; [exact Hd|]. split; [right; reflexivity|].
  exact (swallow_prompt_answers_query false [104; 105] [54] [] 36 out0 Hp Hd (or_intror eq_refl)).
Defined.

(** ** chat_read_line *)

(** Modelled from the spec: [slurp_line] (util.c, not part of src/), the
    "line-slurping utility that reads until a line terminator and reports
    length": it returns the bytes up to and including the first ["\n"],
    or up to end-of-input when no ["\n"] comes, and no line when the
    stream is already at end-of-input. *)
Fixpoint slurp_line_from (inb : list Z) : list Z * list Z :=
  match inb with
  | [] => ([], [])
  | b :: inb' => if b =? 10 then ([b], inb')
                 else let '(l, r) := slurp_line_from inb' in (b :: l, r)
  end.

Definition slurp_line (inb : list Z) : option (list Z * list Z) :=
  match inb with
  | [] => None
  | _ => Some (slurp_line_from inb)
  end.

(** Modelled from the spec: [rtrim(line, &linesz, "\r\n")] (util.c) strips
    the trailing ["\r"] and ["\n"] bytes. *)
Definition rtrim_crlf (l : list Z) : list Z :=
  rev (drop_while (fun b => (b =? 13) || (b =? 10)) (rev l)).

(** [chat_read_line]: [slurp_line], [die(ECOMM, "lost connection to
    child")] when there is no line, then [rtrim]. *)
Definition chat_read_line : M (list Z) :=
  fun cc => match slurp_line (from cc) with
            | None => Died LostConnection cc
            | Some (line, rest) => Ok (rtrim_crlf line) (mk_chat rest (to cc))
            end.

Lemma slurp_line_from_app (l r : list Z) :
  ~ In 10 l -> slurp_line_from (l ++ 10 :: r) = (l ++ [10], r).
Proof.
  induction l as [|b l IH]; intro H; [reflexivity|]; simpl.
  destruct (Z.eqb_spec b 10) as [->|_]; [exfalso; apply H; left; reflexivity|].
  rewrite IH; [reflexivity|]. intro Hin; apply H; right; exact Hin.
Qed.

Lemma rtrim_crlf_line (l : list Z) (term : list Z) :
  (l = [] \/ exists l' x, l = l' ++ [x] /\ x <> 13 /\ x <> 10) ->
  Forall (fun b => b = 13 \/ b = 10) term ->
  rtrim_crlf (l ++ term) = l.
Proof.
  intros Hl Ht. unfold rtrim_crlf. rewrite rev_app_distr.
  assert (Hd : forall r, drop_while (fun b => (b =? 13) || (b =? 10)) (rev term ++ r)
                         = drop_while (fun b => (b =? 13) || (b =? 10)) r).
  { apply Forall_rev in Ht. induction Ht as [|b t Hb Ht IH]; intro r; [reflexivity|].
    simpl. destruct Hb as [-> | ->]; simpl; apply IH. }
  rewrite Hd. destruct Hl as [-> | [l' [x [-> [H13 H10]]]]]; [reflexivity|].
  rewrite rev_app_distr; simpl.
  replace ((x =? 13) || (x =? 10)) with false
    by (symmetry; apply orb_false_iff; split; apply Z.eqb_neq; assumption).
  simpl; rewrite rev_involutive; reflexivity.
Qed.

Lemma read_line_crlf_ok (l rest : list Z) (o : outfile)
  (Hnl : ~ In 10 l) (Hend : l = [] \/ exists l' x, l = l' ++ [x] /\ x <> 13 /\ x <> 10) :
  chat_read_line (mk_chat (l ++ [13; 10] ++ rest) o) = Ok l (mk_chat rest o).
Proof.
  unfold chat_read_line; cbn [from to].
  replace (l ++ [13; 10] ++ rest) with ((l ++ [13]) ++ 10 :: rest) by (rewrite <- app_assoc; reflexivity).
  assert (Hs : slurp_line ((l ++ [13]) ++ 10 :: rest) = Some ((l ++ [13]) ++ [10], rest)).
  { unfold slurp_line. rewrite slurp_line_from_app.
    - destruct l; reflexivity.
    - rewrite in_app_iff; intros [H|[H|H]]; [exact (Hnl H) | discriminate | exact H]. }
  rewrite Hs, <- app_assoc, rtrim_crlf_line; [reflexivity | exact Hend |].
  constructor; [left; reflexivity | constructor; [right; reflexivity | constructor]].
Qed.

(** X7: [chat_read_line] on a line [l] (no ["\n"] in it, not ending in
    ["\r"]) terminated by ["\r\n"] returns [l] and leaves the stream right
    after the ["\n"]; at end-of-input it dies with "lost connection to
    child". *)
Theorem read_line_crlf (l rest : list Z) (o : outfile)
  (Hnl : ~ In 10 l) (Hend : l = [] \/ exists l' x, l = l' ++ [x] /\ x <> 13 /\ x <> 10) :
  chat_read_line (mk_chat (l ++ [13; 10] ++ rest) o) = Ok l (mk_chat rest o) /\
  chat_read_line (mk_chat [] o) = Died LostConnection (mk_chat [] o).
Proof.
  split; [exact (read_line_crlf_ok l rest o Hnl Hend) | reflexivity].
Qed.

Lemma read_line_crlf_witness :
  ~ In 10 [104; 105] /\
  ([104; 105] = [] \/ exists l' x, [104; 105] = l' ++ [x] /\ x <> 13 /\ x <> 10) /\
  chat_read_line (mk_chat ([104; 105] ++ [13; 10] ++ []) out0) = Ok [104; 105] (mk_chat [] out0).
Proof.
  assert (Hn : ~ In 10 [104; 105]) by (simpl; intuition discriminate).
  assert (He : [104; 105] = [] \/ exists l' x, [104; 105] = l' ++ [x] /\ x <> 13 /\ x <> 10)
    by (right; exists [104], 105; split; [reflexivity | split; discriminate]).
  split; [exact Hn|]. split; [exact He|].
  exact (proj1 (read_line_crlf [104; 105] [] out0 Hn He)).
Defined.


